(** * time-aware-pi-camera: the day/night transition scheduler

    A shallow embedding of [src/index.ts] and [src/types.ts].  The program
    switches a camera between its colour and NoIR sensors at sunrise and
    sunset.  Everything outside the repository (the clock, the file system,
    [JSON.parse], the [sunrise-sunset-js] oracle, the timer of the event
    loop) is either a field of the [World] the code runs in or a variable of
    the section the code is embedded in. *)

From Stdlib Require Import ZArith List String Bool Lia.
From Stdlib Require Import Floats.PrimFloat.
Import ListNotations.
Local Open Scope string_scope.
Local Open Scope list_scope.
Local Open Scope Z_scope.

Set Warnings "-register-all".
Set Warnings "-inexact-float".
Set Default Goal Selector "!".

(** ** JavaScript values *)

(** What [JSON.parse] can return, plus [undefined] (the value of a missing
    property).  Numbers are IEEE doubles. *)
Inductive JSValue : Type :=
| JUndefined
| JNull
| JBool (b : bool)
| JNumber (x : float)
| JString (s : string)
| JArray (items : list JSValue)
| JObject (props : list (string * JSValue)).

(** [interface Config { latitude: number; longitude: number }].  The
    interface is erased at run time: a [Config] is whatever value the
    program holds under that type. *)
Definition Config : Type := JSValue.

(** [enum CameraMode { Colour = 0, NoIR = 1 }] *)
Inductive CameraMode : Type := Colour | NoIR.

(** A JavaScript [Date]: a time value in milliseconds since the epoch, or
    the invalid date whose time value is NaN. *)
Inductive Date : Type :=
| ValidDate (ms : Z)
| InvalidDate.

(** [interface Update { fires: Date; state: CameraMode }] *)
Record Update : Type := mkUpdate { fires : Date; state : CameraMode }.

(** Errors a JavaScript computation can throw. *)
Inductive Exn : Type :=
| TypeError
| SyntaxError
| IOError.

Inductive Level : Type := LOW | HIGH.
Inductive Pin : Type := GPIO4 | GPIO17.

(** What the process does to the outside: bus and pin writes, console
    lines, and timers handed to the event loop.  A number that may be NaN
    is an [option Z]. *)
Inductive Event : Type :=
| I2CWrite (address register byte : Z)
| GpioWrite (pin : Pin) (level : Level)
| LogSwitching
| LogSwitched (mode : CameraMode)
| LogStartingNoIR
| LogStartingColour
| LogFiring (mode : CameraMode) (at_ : Date)
| LogIn (delta : option Z)
| SetTimeout (delay : option Z).

(** A call of the [sunrise-sunset-js] oracle as the program wrote it:
    the two coordinates and the [date] argument, [None] where it is left
    out. *)
Inductive OracleCall : Type :=
| CallSunrise (latitude longitude : JSValue) (date : option Date)
| CallSunset (latitude longitude : JSValue) (date : option Date).

(** A pending timer: the closure of [nextLoop] (its [config] and
    [nextMode]) and the clock value it is due at. *)
Record Timer : Type := mkTimer {
  due : Z;
  timer_config : Config;
  timer_nextMode : Update
}.

(** The world the process runs in. *)
Record World : Type := mkWorld {
  clock : Z;                          (* [Date.now()] *)
  env_CONFIG : option string;         (* [process.env.CONFIG] *)
  files : string -> option string;    (* [None]: reading the path throws *)
  argv : list string;                 (* [process.argv] *)
  trace : list Event;                 (* oldest event first *)
  oracle_calls : list OracleCall;     (* oldest call first *)
  timers : list Timer
}.

Definition set_clock (w : World) (t : Z) : World :=
  mkWorld t (env_CONFIG w) (files w) (argv w) (trace w) (oracle_calls w)
          (timers w).

Definition set_trace (w : World) (tr : list Event) : World :=
  mkWorld (clock w) (env_CONFIG w) (files w) (argv w) tr (oracle_calls w)
          (timers w).

Definition set_oracle_calls (w : World) (cs : list OracleCall) : World :=
  mkWorld (clock w) (env_CONFIG w) (files w) (argv w) (trace w) cs
          (timers w).

Definition set_timers (w : World) (ts : list Timer) : World :=
  mkWorld (clock w) (env_CONFIG w) (files w) (argv w) (trace w)
          (oracle_calls w) ts.

(** ** A state-and-exception monad

    An exception keeps the world as it was when it was thrown. *)
Definition M (A : Type) : Type := World -> (Exn + A) * World.

Definition ret {A} (a : A) : M A := fun w => (inr a, w).

Definition throw {A} (e : Exn) : M A := fun w => (inl e, w).

Definition bind {A B} (m : M A) (k : A -> M B) : M B :=
  fun w =>
    match m w with
    | (inr a, w') => k a w'
    | (inl e, w') => (inl e, w')
    end.

Definition try_catch {A} (body : M A) (handler : Exn -> M A) : M A :=
  fun w =>
    match body w with
    | (inr a, w') => (inr a, w')
    | (inl e, w') => handler e w'
    end.

Notation "x <- m ;; k" := (bind m (fun x => k))
  (at level 61, m at next level, right associativity).
Notation "m ;;; k" := (bind m (fun _ => k))
  (at level 61, right associativity).

Definition emit (e : Event) : M unit :=
  fun w => (inr tt, set_trace w (trace w ++ [e])).

Definition record_call (c : OracleCall) : M unit :=
  fun w => (inr tt, set_oracle_calls w (oracle_calls w ++ [c])).

(** [new Date()] *)
Definition newDate : M Date := fun w => (inr (ValidDate (clock w)), w).

(** [Date.now()] *)
Definition Date_now : M Z := fun w => (inr (clock w), w).

(** ** Operators on dates *)

(** [a < b] on two [Date]s compares their time values; a comparison with
    NaN is false. *)
Definition Date_lt (a b : Date) : bool :=
  match a, b with
  | ValidDate x, ValidDate y => x <? y
  | _, _ => false
  end.

(** [a > b] *)
Definition Date_gt (a b : Date) : bool := Date_lt b a.

(** [d.getTime()], NaN as [None] *)
Definition getTime (d : Date) : option Z :=
  match d with
  | ValidDate ms => Some ms
  | InvalidDate => None
  end.

(** ** Property access *)

Fixpoint lookup (key : string) (props : list (string * JSValue)) : JSValue :=
  match props with
  | [] => JUndefined
  | (k, v) :: rest => if String.eqb k key then v else lookup key rest
  end.

(** [v.key] for a key that no prototype defines: reading a property of
    [null] or [undefined] throws, an object answers with its own property,
    every other value with [undefined]. *)
Definition get_prop (v : JSValue) (key : string) : M JSValue :=
  match v with
  | JUndefined | JNull => throw TypeError
  | JObject props => ret (lookup key props)
  | _ => ret JUndefined
  end.

(** ** Loading the configuration *)

(** [const CONFIG_PATH = process.env.CONFIG || '/boot/camera.json']: the
    empty string is falsy. *)
Definition CONFIG_PATH (w : World) : string :=
  match env_CONFIG w with
  | Some p => if String.eqb p EmptyString then "/boot/camera.json" else p
  | None => "/boot/camera.json"
  end.

(** [fs.readFileSync(path, 'utf8')] *)
Definition readFileSync (path : string) : M string :=
  fun w =>
    match files w path with
    | Some content => (inr content, w)
    | None => (inl IOError, w)
    end.

(** London, the object literal of the [catch] block. *)
Definition defaultConfig : Config :=
  JObject [("latitude", JNumber 51.5074%float);
           ("longitude", JNumber 0.1278%float)].

(** ** A sample site

    A regular oracle for the examples: whatever the coordinates, the sun
    rises at 06:30 and sets at 18:00 of the day of [date], days being
    counted from the epoch in milliseconds.  [Stale] is an oracle that
    answers every query with the same two instants. *)
Module Sample.

Definition day : Z := 86400000.

Definition startOfDay (ms : Z) : Z := (ms / day) * day.

Definition getSunrise (_ _ : JSValue) (date : Date) : Date :=
  match date with
  | ValidDate ms => ValidDate (startOfDay ms + 23400000)
  | InvalidDate => InvalidDate
  end.

Definition getSunset (_ _ : JSValue) (date : Date) : Date :=
  match date with
  | ValidDate ms => ValidDate (startOfDay ms + 64800000)
  | InvalidDate => InvalidDate
  end.

Definition plusOneDay (ms : Z) : Z := ms + day.

(** A parser that knows three texts. *)
Definition JSON_parse (s : string) : option JSValue :=
  if String.eqb s "null" then Some JNull
  else if String.eqb s "42" then Some (JNumber 42%float)
  else if String.eqb s "{}" then Some (JObject [])
  else None.

(** A process started at [now] with the arguments [args], no
    configuration file and nothing done yet. *)
Definition world (now : Z) (args : list string) : World :=
  mkWorld now None (fun _ => None) args [] [] [].

(** The same with [content] in the configuration file. *)
Definition worldWithFile (content : string) : World :=
  mkWorld 0 None
          (fun path =>
             if String.eqb path "/boot/camera.json" then Some content
             else None)
          ["node"; "index.js"] [] [] [].

End Sample.

Module Stale.

Definition getSunrise (_ _ : JSValue) (_ : Date) : Date := ValidDate 10.

Definition getSunset (_ _ : JSValue) (_ : Date) : Date := ValidDate 20.

End Stale.

(** [Arctic] is the sample oracle at the onset of the polar night: the
    sun rises and sets on the first day, and the queries for later days
    are answered with the invalid date. *)
Module Arctic.

Definition getSunrise (latitude longitude : JSValue) (date : Date) : Date :=
  match date with
  | ValidDate ms =>
      if ms <? Sample.day
      then Sample.getSunrise latitude longitude date
      else InvalidDate
  | InvalidDate => InvalidDate
  end.

Definition getSunset (latitude longitude : JSValue) (date : Date) : Date :=
  match date with
  | ValidDate ms =>
      if ms <? Sample.day
      then Sample.getSunset latitude longitude date
      else InvalidDate
  | InvalidDate => InvalidDate
  end.

End Arctic.

(** [Polar] is an oracle for a place and season without sunrise and
    sunset: every answer is the invalid date. *)
Module Polar.

Definition getSunrise (_ _ : JSValue) (_ : Date) : Date := InvalidDate.

Definition getSunset (_ _ : JSValue) (_ : Date) : Date := InvalidDate.

End Polar.

Section Program.

(** [JSON.parse]: the parsed value, or [None] where it throws a
    [SyntaxError]. *)
Variable JSON_parse : string -> option JSValue.

(** The oracle of [sunrise-sunset-js]: [getSunrise(latitude, longitude,
    date)] and [getSunset(latitude, longitude, date)], functions of their
    arguments.  The arguments are whatever the configuration holds. *)
Variable getSunrise : JSValue -> JSValue -> Date -> Date.
Variable getSunset : JSValue -> JSValue -> Date -> Date.

(** [d.setDate(d.getDate() + 1)] on the time value of a valid date: the
    same local time on the following calendar day. *)
Variable plusOneDay : Z -> Z.

Definition JSON_parse_m (s : string) : M JSValue :=
  match JSON_parse s with
  | Some v => ret v
  | None => throw SyntaxError
  end.

Definition loadConfig : M Config :=
  try_catch
    (fun w => (config <- readFileSync (CONFIG_PATH w) ;;
               JSON_parse_m config) w)
    (fun _ => ret defaultConfig).

(** ** The transition planner *)

(** A call of the oracle; without its [date] argument the library takes
    [new Date()]. *)
Definition call_getSunrise (latitude longitude : JSValue)
    (date : option Date) : M Date :=
  record_call (CallSunrise latitude longitude date) ;;;
  d <- match date with
       | Some d => ret d
       | None => newDate
       end ;;
  ret (getSunrise latitude longitude d).

Definition call_getSunset (latitude longitude : JSValue)
    (date : option Date) : M Date :=
  record_call (CallSunset latitude longitude date) ;;;
  d <- match date with
       | Some d => ret d
       | None => newDate
       end ;;
  ret (getSunset latitude longitude d).

Definition nextUpdate (config : Config) : M Update :=
  now <- newDate ;;
  tomorrow0 <- newDate ;;
  let tomorrow :=
    match tomorrow0 with
    | ValidDate ms => ValidDate (plusOneDay ms)
    | InvalidDate => InvalidDate
    end in
  latitude <- get_prop config "latitude" ;;
  longitude <- get_prop config "longitude" ;;
  nextSunrise <- call_getSunrise latitude longitude None ;;
  latitude <- get_prop config "latitude" ;;
  longitude <- get_prop config "longitude" ;;
  nextSunset <- call_getSunset latitude longitude None ;;
  (* Handle wrapping onto next day *)
  nextSunrise <-
    (if Date_lt nextSunrise now then
       latitude <- get_prop config "latitude" ;;
       longitude <- get_prop config "longitude" ;;
       call_getSunrise latitude longitude (Some tomorrow)
     else ret nextSunrise) ;;
  nextSunset <-
    (if Date_lt nextSunset now then
       latitude <- get_prop config "latitude" ;;
       longitude <- get_prop config "longitude" ;;
       call_getSunset latitude longitude (Some tomorrow)
     else ret nextSunset) ;;
  let sunriseNext := Date_lt nextSunrise nextSunset in
  (* Handle if the sunrise/sunset date is actually in the past *)
  let sunriseNext :=
    if sunriseNext && Date_gt now nextSunrise then false
    else if negb sunriseNext && Date_gt now nextSunset then true
    else sunriseNext in
  ret (if sunriseNext
       then {| fires := nextSunrise; state := Colour |}
       else {| fires := nextSunset; state := NoIR |}).

(** ** The mode change *)

Definition update (mode : CameraMode) : M unit :=
  emit LogSwitching ;;;
  match mode with
  | Colour =>
      emit (I2CWrite 0x70 0x0 0x1) ;;;
      emit (GpioWrite GPIO4 LOW)
  | NoIR =>
      emit (I2CWrite 0x70 0x0 0x2) ;;;
      emit (GpioWrite GPIO4 HIGH)
  end ;;;
  emit (LogSwitched mode).

(** ** Start-up

    [init] runs its callback once and [setup]'s promise resolves with what
    the callback passes to [resolve]; an exception in the callback ends the
    process. *)
Definition setup (config : Config) : M Update :=
  emit (I2CWrite 0x70 0x0 0x1) ;;;
  emit (GpioWrite GPIO17 LOW) ;;;
  emit (GpioWrite GPIO4 LOW) ;;;
  next <- nextUpdate config ;;
  match state next with
  | Colour =>
      (* We should be on NoIR until this fires *)
      emit LogStartingNoIR ;;;
      update NoIR
  | NoIR =>
      (* Colour instead *)
      emit LogStartingColour ;;;
      update Colour
  end ;;;
  ret next.

(** ** The timer loop *)

(** The delay Node's [setTimeout] waits for: a delay below 1, above
    2^31 - 1 or NaN is replaced by 1. *)
Definition timer_delay (delay : option Z) : Z :=
  match delay with
  | Some d => if (1 <=? d) && (d <=? 2147483647) then d else 1
  | None => 1
  end.

(** [setTimeout(callback, delay)] where [callback] is the arrow function of
    [nextLoop], closed over [config] and [nextMode]. *)
Definition setTimeout (config : Config) (nextMode : Update)
    (delay : option Z) : M unit :=
  emit (SetTimeout delay) ;;;
  fun w =>
    (inr tt,
     set_timers w (timers w ++ [mkTimer (clock w + timer_delay delay)
                                        config nextMode])).

(** [a - b] and [a + b] on numbers that may be NaN. *)
Definition num_sub (a : option Z) (b : Z) : option Z :=
  option_map (fun x => x - b) a.

Definition num_add (a : option Z) (b : Z) : option Z :=
  option_map (fun x => x + b) a.

Definition nextLoop (config : Config) (nextMode : Update) : M unit :=
  now <- Date_now ;;
  emit (LogFiring (state nextMode) (fires nextMode)) ;;;
  emit (LogIn (num_sub (getTime (fires nextMode)) now)) ;;;
  setTimeout config nextMode
    (num_add (num_sub (getTime (fires nextMode)) now) 1000).

(** The body of the arrow function handed to [setTimeout]. *)
Definition timer_callback (t : Timer) : M unit :=
  update (state (timer_nextMode t)) ;;;
  nextMode <- nextUpdate (timer_config t) ;;
  nextLoop (timer_config t) nextMode.

(** The event loop takes the pending timer that is due first (the oldest
    among equals). *)
Fixpoint earliest (t : Timer) (rest : list Timer) : Timer * list Timer :=
  match rest with
  | [] => (t, [])
  | u :: rest' =>
      let (m, others) := earliest u rest' in
      if due t <=? due m then (t, rest) else (m, t :: others)
  end.

(** One turn of the event loop: with no timer pending the process exits
    ([None]); otherwise the clock moves to the due time of the earliest
    timer, or [late] milliseconds past it, and its callback runs. *)
Definition fire (late : Z) (w : World) : option ((Exn + unit) * World) :=
  match timers w with
  | [] => None
  | t :: rest =>
      let (t', others) := earliest t rest in
      Some (timer_callback t'
              (set_clock (set_timers w others)
                         (Z.max (clock w) (due t') + Z.max 0 late)))
  end.

(** The event loop, one turn per element of [lates]; an exception ends the
    process. *)
Fixpoint eventLoop (lates : list Z) (w : World) : (Exn + unit) * World :=
  match lates with
  | [] => (inr tt, w)
  | late :: lates' =>
      match fire late w with
      | None => (inr tt, w)
      | Some (inr _, w') => eventLoop lates' w'
      | Some (inl e, w') => (inl e, w')
      end
  end.

(** ** Process entry *)

(** [argv.indexOf(x)], as a position from 0; [None] for -1. *)
Fixpoint indexOf (x : string) (l : list string) : option nat :=
  match l with
  | [] => None
  | y :: l' =>
      if String.eqb y x then Some O
      else option_map S (indexOf x l')
  end.

(** [v === s] for [v] an element of [argv] or [undefined] ([None]). *)
Definition strict_eq (v : option string) (s : string) : bool :=
  match v with
  | Some x => String.eqb x s
  | None => false
  end.

(** [argv.includes(x)] *)
Definition includes (x : string) (l : list string) : bool :=
  existsb (String.eqb x) l.

Definition main : M unit :=
  (* Init *)
  config <- loadConfig ;;
  nextMode <- setup config ;;
  fun w =>
    let argv := argv w in
    (if includes "--test" argv then
       let mode :=
         match indexOf "--test" argv with
         | Some index => nth_error argv (index + 1)
         | None => nth_error argv 0
         end in
       if strict_eq mode "0" then update Colour
       else if strict_eq mode "1" then update NoIR
       else ret tt
     else
       (* Start event loop *)
       nextLoop config nextMode) w.

(** ** Vocabulary of the specification *)

(** A value whose properties cannot be read. *)
Definition nullish (v : JSValue) : bool :=
  match v with
  | JUndefined | JNull => true
  | _ => false
  end.

(** The value of [v.key] where reading it does not throw. *)
Definition prop_of (v : JSValue) (key : string) : JSValue :=
  match v with
  | JObject props => lookup key props
  | _ => JUndefined
  end.

(** The two events of the day of [date] at the configured place. *)
Definition sunriseOn (config : Config) (date : Date) : Date :=
  getSunrise (prop_of config "latitude") (prop_of config "longitude") date.

Definition sunsetOn (config : Config) (date : Date) : Date :=
  getSunset (prop_of config "latitude") (prop_of config "longitude") date.

Definition tomorrowOf (now : Z) : Date := ValidDate (plusOneDay now).

(** The candidates after the roll-forward step (lines 44 to 48). *)
Definition rolledSunrise (config : Config) (now : Z) : Date :=
  if Date_lt (sunriseOn config (ValidDate now)) (ValidDate now)
  then sunriseOn config (tomorrowOf now)
  else sunriseOn config (ValidDate now).

Definition rolledSunset (config : Config) (now : Z) : Date :=
  if Date_lt (sunsetOn config (ValidDate now)) (ValidDate now)
  then sunsetOn config (tomorrowOf now)
  else sunsetOn config (ValidDate now).

(** The oracle calls of one run of the planner, in order. *)
Definition plannedCalls (config : Config) (now : Z) : list OracleCall :=
  let latitude := prop_of config "latitude" in
  let longitude := prop_of config "longitude" in
  [CallSunrise latitude longitude None; CallSunset latitude longitude None]
  ++ (if Date_lt (sunriseOn config (ValidDate now)) (ValidDate now)
      then [CallSunrise latitude longitude (Some (tomorrowOf now))]
      else [])
  ++ (if Date_lt (sunsetOn config (ValidDate now)) (ValidDate now)
      then [CallSunset latitude longitude (Some (tomorrowOf now))]
      else []).

(** The other mode. *)
Definition opposite (mode : CameraMode) : CameraMode :=
  match mode with
  | Colour => NoIR
  | NoIR => Colour
  end.

(** The events of one call of [update]. *)
Definition update_events (mode : CameraMode) : list Event :=
  match mode with
  | Colour =>
      [LogSwitching; I2CWrite 0x70 0x0 0x1; GpioWrite GPIO4 LOW;
       LogSwitched Colour]
  | NoIR =>
      [LogSwitching; I2CWrite 0x70 0x0 0x2; GpioWrite GPIO4 HIGH;
       LogSwitched NoIR]
  end.

(** The modes a trace applies, one per completed call of [update]. *)
Fixpoint applied (tr : list Event) : list CameraMode :=
  match tr with
  | [] => []
  | LogSwitched mode :: tr' => mode :: applied tr'
  | _ :: tr' => applied tr'
  end.

(** The delays of the timers a trace arms. *)
Fixpoint armed (tr : list Event) : list (option Z) :=
  match tr with
  | [] => []
  | SetTimeout delay :: tr' => delay :: armed tr'
  | _ :: tr' => armed tr'
  end.

(** The result of the planner as a function of the configuration and the
    clock. *)
Definition planned (config : Config) (now : Z) : Update :=
  let nextSunrise := rolledSunrise config now in
  let nextSunset := rolledSunset config now in
  if Date_lt nextSunrise nextSunset then
    if Date_gt (ValidDate now) nextSunrise
    then {| fires := nextSunset; state := NoIR |}
    else {| fires := nextSunrise; state := Colour |}
  else
    if Date_gt (ValidDate now) nextSunset
    then {| fires := nextSunrise; state := Colour |}
    else {| fires := nextSunset; state := NoIR |}.

(** The oracle answers the queries of a run at [now] with valid dates,
    and the events of the following day are not before [now]. *)
Definition oracle_regular (config : Config) (now : Z) : Prop :=
  exists sr0 ss0 sr1 ss1,
    sunriseOn config (ValidDate now) = ValidDate sr0 /\
    sunsetOn config (ValidDate now) = ValidDate ss0 /\
    sunriseOn config (tomorrowOf now) = ValidDate sr1 /\
    sunsetOn config (tomorrowOf now) = ValidDate ss1 /\
    now <= sr1 /\ now <= ss1.


(** An event of the current day that lies at or before the clock of the run
    is queried again for the following day. *)
Definition requeries_at_or_before_now (config : Config) (w : World) : Prop :=
  exists u w',
    nextUpdate config w = (inr u, w') /\
    (forall s, sunriseOn config (ValidDate (clock w)) = ValidDate s ->
               s <= clock w ->
               In (CallSunrise (prop_of config "latitude")
                               (prop_of config "longitude")
                               (Some (tomorrowOf (clock w))))
                  (oracle_calls w')) /\
    (forall s, sunsetOn config (ValidDate (clock w)) = ValidDate s ->
               s <= clock w ->
               In (CallSunset (prop_of config "latitude")
                              (prop_of config "longitude")
                              (Some (tomorrowOf (clock w))))
                  (oracle_calls w')).

(** The writes of [setup] before it calls the planner. *)
Definition init_events : list Event :=
  [I2CWrite 0x70 0x0 0x1; GpioWrite GPIO17 LOW; GpioWrite GPIO4 LOW].

(** The console line of [setup] for the planned state. *)
Definition starting_log (next_state : CameraMode) : Event :=
  match next_state with
  | Colour => LogStartingNoIR
  | NoIR => LogStartingColour
  end.

(** The delay [nextLoop] passes to [setTimeout]. *)
Definition loop_delay (nextMode : Update) (now : Z) : option Z :=
  num_add (num_sub (getTime (fires nextMode)) now) 1000.

(** The mode a selector of the test mode stands for. *)
Definition selectorMode (selector : string) : option CameraMode :=
  if String.eqb selector "0" then Some Colour
  else if String.eqb selector "1" then Some NoIR
  else None.

(** A run of [main] applies the selected mode and no other, arms no timer
    and leaves none pending. *)
Definition test_mode_applies_only_selected
    (w : World) (selected : CameraMode) : Prop :=
  exists w',
    main w = (inr tt, w') /\
    applied (trace w') = applied (trace w) ++ [selected] /\
    armed (trace w') = armed (trace w) /\
    timers w' = timers w.


(** The state the hardware is left in: the last byte written to register 0
    of the multiplexer at address 0x70 and the last level written to each
    pin, [None] where nothing was written yet. *)
Record Hardware : Type := mkHardware {
  mux : option Z;
  gpio4 : option Level;
  gpio17 : option Level
}.

Definition hardware_step (h : Hardware) (e : Event) : Hardware :=
  match e with
  | I2CWrite address register byte =>
      if (address =? 0x70) && (register =? 0x0)
      then mkHardware (Some byte) (gpio4 h) (gpio17 h)
      else h
  | GpioWrite GPIO4 level => mkHardware (mux h) (Some level) (gpio17 h)
  | GpioWrite GPIO17 level => mkHardware (mux h) (gpio4 h) (Some level)
  | _ => h
  end.

Definition hardware_from (h : Hardware) (tr : list Event) : Hardware :=
  fold_left hardware_step tr h.

Definition hardware (tr : list Event) : Hardware :=
  hardware_from (mkHardware None None None) tr.

(** The multiplexer byte and the level of GPIO4 that select a camera. *)
Definition mode_byte (mode : CameraMode) : Z :=
  match mode with
  | Colour => 0x1
  | NoIR => 0x2
  end.

Definition mode_level (mode : CameraMode) : Level :=
  match mode with
  | Colour => LOW
  | NoIR => HIGH
  end.

(** The coordinates an oracle call passes. *)
Definition call_coordinates (c : OracleCall) : JSValue * JSValue :=
  match c with
  | CallSunrise latitude longitude _ => (latitude, longitude)
  | CallSunset latitude longitude _ => (latitude, longitude)
  end.

(** ** How the planner runs *)

Lemma get_prop_ok (v : JSValue) (key : string) (w : World) :
  nullish v = false -> get_prop v key w = (inr (prop_of v key), w).
Proof. destruct v; simpl; intros H; try discriminate H; reflexivity. Qed.

Lemma get_prop_nullish (v : JSValue) (key : string) (w : World) :
  nullish v = true -> get_prop v key w = (inl TypeError, w).
Proof. destruct v; simpl; intros H; try discriminate H; reflexivity. Qed.

Lemma nextUpdate_run (config : Config) (w : World) :
  nullish config = false ->
  nextUpdate config w =
    (inr (planned config (clock w)),
     set_oracle_calls w (oracle_calls w ++ plannedCalls config (clock w))).
Proof.
  intros Hc.
  unfold nextUpdate, planned, plannedCalls, rolledSunrise, rolledSunset,
    sunriseOn, sunsetOn, tomorrowOf, call_getSunrise, call_getSunset,
    bind, newDate, ret, record_call.
  rewrite !(get_prop_ok _ _ _ Hc). cbn.
  destruct (Date_lt (getSunrise _ _ (ValidDate (clock w))) _) eqn:E1;
    destruct (Date_lt (getSunset _ _ (ValidDate (clock w))) _) eqn:E2;
    cbn; rewrite ?(get_prop_ok _ _ _ Hc); cbn;
    rewrite ?(get_prop_ok _ _ _ Hc); cbn.
  all: unfold set_oracle_calls; cbn; rewrite <- ?app_assoc; cbn.
  all: match goal with
       | |- context [Date_lt ?a ?b && Date_gt ?c ?a] =>
           destruct (Date_lt a b) eqn:E3; destruct (Date_gt c a) eqn:E4;
           cbn; try reflexivity
       end.
  all: match goal with
       | |- context [Date_gt ?c ?a] =>
           destruct (Date_gt c a) eqn:E5; cbn; try reflexivity
       end.
Qed.

Lemma nextUpdate_throws (config : Config) (w : World) :
  nullish config = true -> nextUpdate config w = (inl TypeError, w).
Proof.
  intros Hc. unfold nextUpdate, bind, newDate.
  rewrite (get_prop_nullish _ _ _ Hc). reflexivity.
Qed.

(** ** The configuration loader *)

Lemma loadConfig_run (w : World) :
  loadConfig w =
    match files w (CONFIG_PATH w) with
    | Some content =>
        match JSON_parse content with
        | Some v => (inr v, w)
        | None => (inr defaultConfig, w)
        end
    | None => (inr defaultConfig, w)
    end.
Proof.
  unfold loadConfig, try_catch, bind, readFileSync, JSON_parse_m.
  destruct (files w (CONFIG_PATH w)) as [content|]; [|reflexivity].
  destruct (JSON_parse content); reflexivity.
Qed.

(** C8: [loadConfig] returns a configuration from every world, without
    raising and without changing the world; when the file cannot be read,
    or its content does not parse, the configuration is the default one,
    latitude 51.5074 and longitude 0.1278. *)
Theorem loadConfig_never_raises (w : World) :
  (exists config, loadConfig w = (inr config, w)) /\
  (files w (CONFIG_PATH w) = None ->
   loadConfig w = (inr defaultConfig, w)) /\
  (forall content,
     files w (CONFIG_PATH w) = Some content ->
     JSON_parse content = None ->
     loadConfig w = (inr defaultConfig, w)) /\
  defaultConfig = JObject [("latitude", JNumber 51.5074%float);
                           ("longitude", JNumber 0.1278%float)].
Proof.
  rewrite loadConfig_run. repeat split.
  - destruct (files w (CONFIG_PATH w)) as [content|]; [|eauto].
    destruct (JSON_parse content); eauto.
  - intros ->. reflexivity.
  - intros content -> ->. reflexivity.
Qed.

(** C10: whatever value the content of the file parses to, [loadConfig]
    returns that value itself, object or not; the default configuration
    comes back only from the two failures, reading and parsing. *)
Theorem loadConfig_returns_parsed_value (w : World) :
  (forall content v,
     files w (CONFIG_PATH w) = Some content ->
     JSON_parse content = Some v ->
     loadConfig w = (inr v, w)) /\
  (forall config w',
     loadConfig w = (inr config, w') ->
     (exists content,
        files w (CONFIG_PATH w) = Some content /\
        JSON_parse content = Some config) \/
     (config = defaultConfig /\
      (files w (CONFIG_PATH w) = None \/
       exists content,
         files w (CONFIG_PATH w) = Some content /\
         JSON_parse content = None))).
Proof.
  rewrite loadConfig_run. split.
  - intros content v -> ->. reflexivity.
  - intros config w'.
    destruct (files w (CONFIG_PATH w)) as [content|].
    + destruct (JSON_parse content) as [v|] eqn:E; intros [= <- <-].
      * left. eauto.
      * right. split; [reflexivity|]. right. eauto.
    + intros [= <- <-]. right. split; [reflexivity|]. left. reflexivity.
Qed.

(** ** The planner *)

(** C9: two runs of the planner for the same configuration, in worlds
    whose clocks agree, return the same result (the same [Update] or the
    same exception) and make the same oracle calls; a run changes nothing
    of its world but the record of those calls. *)
Theorem nextUpdate_deterministic (config : Config) (w1 w2 : World) :
  clock w1 = clock w2 ->
  exists r calls,
    nextUpdate config w1 =
      (r, set_oracle_calls w1 (oracle_calls w1 ++ calls)) /\
    nextUpdate config w2 =
      (r, set_oracle_calls w2 (oracle_calls w2 ++ calls)).
Proof.
  intros Hclock. destruct (nullish config) eqn:Hc.
  - exists (inl TypeError), [].
    rewrite !(nextUpdate_throws _ _ Hc), !app_nil_r.
    destruct w1, w2; split; reflexivity.
  - exists (inr (planned config (clock w1))), (plannedCalls config (clock w1)).
    rewrite !(nextUpdate_run _ _ Hc), Hclock. split; reflexivity.
Qed.

(** C5: with the candidates as the roll-forward step leaves them, the
    planner returns the sunset (and NoIR) when the sunrise was selected and
    now is past it, the sunrise (and Colour) when the sunset was selected
    and now is past it, and the selected event otherwise. *)
Theorem correction_pass_flips (config : Config) (w : World) :
  nullish config = false ->
  exists u w',
    nextUpdate config w = (inr u, w') /\
    let now := ValidDate (clock w) in
    let nextSunrise := rolledSunrise config (clock w) in
    let nextSunset := rolledSunset config (clock w) in
    (Date_lt nextSunrise nextSunset = true ->
     Date_gt now nextSunrise = true ->
     u = {| fires := nextSunset; state := NoIR |}) /\
    (Date_lt nextSunrise nextSunset = false ->
     Date_gt now nextSunset = true ->
     u = {| fires := nextSunrise; state := Colour |}) /\
    (Date_lt nextSunrise nextSunset = true ->
     Date_gt now nextSunrise = false ->
     u = {| fires := nextSunrise; state := Colour |}) /\
    (Date_lt nextSunrise nextSunset = false ->
     Date_gt now nextSunset = false ->
     u = {| fires := nextSunset; state := NoIR |}).
Proof.
  intros Hc. rewrite (nextUpdate_run _ _ Hc).
  eexists; eexists; split; [reflexivity|].
  unfold planned. cbv zeta.
  repeat split; intros -> ->; reflexivity.
Qed.

(** A candidate that lies before now after the roll-forward step is the
    answer to the query for the following day. *)
Lemma rolledSunrise_past (config : Config) (now : Z) :
  Date_lt (rolledSunrise config now) (ValidDate now) = true ->
  Date_lt (sunriseOn config (ValidDate now)) (ValidDate now) = true /\
  rolledSunrise config now = sunriseOn config (tomorrowOf now).
Proof.
  unfold rolledSunrise.
  destruct (Date_lt (sunriseOn config (ValidDate now)) (ValidDate now)) eqn:E.
  - auto.
  - intros H. congruence.
Qed.

Lemma rolledSunset_past (config : Config) (now : Z) :
  Date_lt (rolledSunset config now) (ValidDate now) = true ->
  Date_lt (sunsetOn config (ValidDate now)) (ValidDate now) = true /\
  rolledSunset config now = sunsetOn config (tomorrowOf now).
Proof.
  unfold rolledSunset.
  destruct (Date_lt (sunsetOn config (ValidDate now)) (ValidDate now)) eqn:E.
  - auto.
  - intros H. congruence.
Qed.

(** C2: when both candidates lie before now after the roll-forward step,
    the planner returns the opposite of the mode of the event it selected,
    and [fires] is the oracle's answer for the other event on the following
    day, which is among the queries of this run. *)
Theorem correction_case_takes_alternate_event (config : Config) (w : World) :
  nullish config = false ->
  Date_lt (rolledSunrise config (clock w)) (ValidDate (clock w)) = true ->
  Date_lt (rolledSunset config (clock w)) (ValidDate (clock w)) = true ->
  exists u w' calls,
    nextUpdate config w = (inr u, w') /\
    oracle_calls w' = oracle_calls w ++ calls /\
    let latitude := prop_of config "latitude" in
    let longitude := prop_of config "longitude" in
    let tomorrow := tomorrowOf (clock w) in
    if Date_lt (rolledSunrise config (clock w))
               (rolledSunset config (clock w))
    then (* the sunrise was selected *)
      u = {| fires := getSunset latitude longitude tomorrow;
             state := opposite Colour |} /\
      In (CallSunset latitude longitude (Some tomorrow)) calls
    else (* the sunset was selected *)
      u = {| fires := getSunrise latitude longitude tomorrow;
             state := opposite NoIR |} /\
      In (CallSunrise latitude longitude (Some tomorrow)) calls.
Proof.
  intros Hc Hsr Hss. rewrite (nextUpdate_run _ _ Hc).
  eexists; eexists; exists (plannedCalls config (clock w)).
  split; [reflexivity|]. split; [reflexivity|]. cbv zeta.
  destruct (rolledSunrise_past _ _ Hsr) as [Esr Rsr].
  destruct (rolledSunset_past _ _ Hss) as [Ess Rss].
  unfold planned, Date_gt. rewrite Hsr, Hss.
  unfold plannedCalls. rewrite Esr, Ess.
  destruct (Date_lt (rolledSunrise config (clock w))
                    (rolledSunset config (clock w))); split.
  - rewrite Rss. reflexivity.
  - simpl. auto.
  - rewrite Rsr. reflexivity.
  - simpl. auto.
Qed.

(** C3 (amended): the oracle calls of a run are the two queries for the
    current day, then the sunrise of the following day exactly when the
    sunrise of the current day lies strictly before now, then the sunset of
    the following day exactly when the sunset of the current day lies
    strictly before now; an event that coincides with now is not queried
    again.  The result is one of the two candidates so obtained. *)
Theorem requeries_strictly_before_now (config : Config) (w : World) :
  nullish config = false ->
  exists u w' calls,
    nextUpdate config w = (inr u, w') /\
    oracle_calls w' = oracle_calls w ++ calls /\
    let latitude := prop_of config "latitude" in
    let longitude := prop_of config "longitude" in
    let now := ValidDate (clock w) in
    let tomorrow := tomorrowOf (clock w) in
    calls =
      [CallSunrise latitude longitude None;
       CallSunset latitude longitude None]
      ++ (if Date_lt (getSunrise latitude longitude now) now
          then [CallSunrise latitude longitude (Some tomorrow)] else [])
      ++ (if Date_lt (getSunset latitude longitude now) now
          then [CallSunset latitude longitude (Some tomorrow)] else []) /\
    (getSunrise latitude longitude now = now ->
     ~ In (CallSunrise latitude longitude (Some tomorrow)) calls) /\
    (getSunset latitude longitude now = now ->
     ~ In (CallSunset latitude longitude (Some tomorrow)) calls) /\
    (fires u =
       (if Date_lt (getSunrise latitude longitude now) now
        then getSunrise latitude longitude tomorrow
        else getSunrise latitude longitude now) \/
     fires u =
       (if Date_lt (getSunset latitude longitude now) now
        then getSunset latitude longitude tomorrow
        else getSunset latitude longitude now)).
Proof.
  intros Hc. rewrite (nextUpdate_run _ _ Hc).
  exists (planned config (clock w)),
    (set_oracle_calls w (oracle_calls w ++ plannedCalls config (clock w))),
    (plannedCalls config (clock w)).
  split; [reflexivity|]. split; [reflexivity|]. cbv zeta.
  split; [reflexivity|].
  assert (Hirr : forall d, Date_lt d d = false).
  { intros [ms|]; simpl; [apply Z.ltb_irrefl | reflexivity]. }
  unfold plannedCalls, sunriseOn, sunsetOn.
  repeat split.
  - intros E. rewrite E, Hirr. simpl.
    intros [H|[H|H]]; try discriminate H.
    destruct (Date_lt _ _); simpl in H; [destruct H as [H|H]|];
      try discriminate H; exact H.
  - intros E. rewrite E, Hirr. simpl.
    intros [H|[H|H]]; try discriminate H.
    rewrite app_nil_r in H.
    destruct (Date_lt _ _); simpl in H; [destruct H as [H|H]|];
      try discriminate H; exact H.
  - unfold planned, rolledSunrise, rolledSunset, sunriseOn, sunsetOn.
    repeat match goal with
           | |- context [if ?c then _ else _] => destruct c
           end; simpl; auto.
Qed.



(** ** The scheduler *)

Lemma applied_app (a b : list Event) :
  applied (a ++ b) = applied a ++ applied b.
Proof.
  induction a as [|e a IH]; simpl; [reflexivity|].
  destruct e; simpl; rewrite IH; reflexivity.
Qed.

Lemma armed_app (a b : list Event) :
  armed (a ++ b) = armed a ++ armed b.
Proof.
  induction a as [|e a IH]; simpl; [reflexivity|].
  destruct e; simpl; rewrite IH; reflexivity.
Qed.

Lemma applied_update_events (mode : CameraMode) :
  applied (update_events mode) = [mode].
Proof. destruct mode; reflexivity. Qed.

Lemma armed_update_events (mode : CameraMode) :
  armed (update_events mode) = [].
Proof. destruct mode; reflexivity. Qed.

Lemma update_run (mode : CameraMode) (w : World) :
  update mode w = (inr tt, set_trace w (trace w ++ update_events mode)).
Proof.
  destruct mode; unfold update, bind, emit, set_trace; cbn;
    rewrite <- !app_assoc; reflexivity.
Qed.

Lemma setup_run (config : Config) (w : World) :
  nullish config = false ->
  let next := planned config (clock w) in
  setup config w =
    (inr next,
     set_oracle_calls
       (set_trace w (trace w ++ init_events ++ [starting_log (state next)]
                             ++ update_events (opposite (state next))))
       (oracle_calls w ++ plannedCalls config (clock w))).
Proof.
  intros Hc next. unfold setup, bind at 1 2 3, emit.
  unfold bind at 1. rewrite (nextUpdate_run _ _ Hc). cbn [clock set_trace].
  fold next. unfold bind.
  destruct (state next); unfold emit; rewrite update_run; unfold ret;
    unfold set_trace, set_oracle_calls, init_events; cbn;
    rewrite <- !app_assoc; reflexivity.
Qed.

Lemma nextLoop_run (config : Config) (nextMode : Update) (w : World) :
  nextLoop config nextMode w =
    (inr tt,
     set_timers
       (set_trace w (trace w ++
          [LogFiring (state nextMode) (fires nextMode);
           LogIn (num_sub (getTime (fires nextMode)) (clock w));
           SetTimeout (loop_delay nextMode (clock w))]))
       (timers w ++
          [mkTimer (clock w + timer_delay (loop_delay nextMode (clock w)))
                   config nextMode])).
Proof.
  unfold nextLoop, setTimeout, bind, Date_now, emit, set_trace, set_timers,
    loop_delay; cbn.
  rewrite <- !app_assoc. reflexivity.
Qed.

Lemma indexOf_includes (x : string) (l : list string) (index : nat) :
  indexOf x l = Some index -> includes x l = true.
Proof.
  revert index. induction l as [|y l IH]; simpl; intros index H.
  - discriminate H.
  - rewrite String.eqb_sym. destruct (String.eqb y x); simpl; [reflexivity|].
    destruct (indexOf x l) as [i|]; [|discriminate H].
    exact (IH i eq_refl).
Qed.

Lemma eventLoop_no_timer (lates : list Z) (w : World) :
  timers w = [] -> eventLoop lates w = (inr tt, w).
Proof.
  intros H. destruct lates as [|late lates]; simpl; [reflexivity|].
  unfold fire. rewrite H. reflexivity.
Qed.

(** C6: [setup] calls the planner after its initial writes and, with the
    planner's result [next], applies the opposite of [next]'s state, once,
    and resolves with [next]; no timer is armed by then.  In a run of
    [main] without the test flag the timer for [next] is armed after that,
    as the last event. *)
Theorem startup_applies_opposite (config : Config) (w : World) :
  nullish config = false ->
  exists next w1 w2,
    nextUpdate config (set_trace w (trace w ++ init_events)) = (inr next, w1)
    /\ setup config w = (inr next, w2)
    /\ trace w2 = trace w ++ init_events ++ [starting_log (state next)]
                          ++ update_events (opposite (state next))
    /\ applied (trace w2) = applied (trace w) ++ [opposite (state next)]
    /\ armed (trace w2) = armed (trace w)
    /\ timers w2 = timers w
    /\ (loadConfig w = (inr config, w) ->
        includes "--test" (argv w) = false ->
        exists w3,
          main w = (inr tt, w3) /\
          trace w3 =
            trace w2 ++
              [LogFiring (state next) (fires next);
               LogIn (num_sub (getTime (fires next)) (clock w));
               SetTimeout (loop_delay next (clock w))] /\
          timers w3 =
            timers w ++
              [mkTimer (clock w + timer_delay (loop_delay next (clock w)))
                       config next]).
Proof.
  intros Hc.
  exists (planned config (clock w)).
  eexists; eexists.
  split;
    [apply (nextUpdate_run config (set_trace w (trace w ++ init_events)) Hc)|].
  split; [apply (setup_run _ _ Hc)|].
  cbn [clock trace timers set_trace set_oracle_calls].
  split; [reflexivity|].
  split.
  { rewrite !applied_app, applied_update_events.
    destruct (state (planned config (clock w))); reflexivity. }
  split.
  { rewrite !armed_app, armed_update_events.
    destruct (state (planned config (clock w)));
      simpl; rewrite app_nil_r; reflexivity. }
  split; [reflexivity|].
  intros Hload Hargs.
  unfold main, bind. rewrite Hload, (setup_run _ _ Hc).
  cbn [argv set_trace set_oracle_calls]. rewrite Hargs, nextLoop_run.
  eexists. split; [reflexivity|].
  cbn [clock trace timers set_trace set_oracle_calls set_timers].
  split; reflexivity.
Qed.

(** C4 (amended): a run of [main] with the test flag and the selector 0 or
    1 first runs [setup], which calls the planner and applies the opposite
    of the planned state, and then applies the selected mode once, as the
    last mode of the run.  No timer is armed and none is left pending, so
    the event loop has nothing to run. *)
Theorem test_mode_after_setup
    (config : Config) (w : World) (index : nat) (selector : string)
    (selected : CameraMode) :
  loadConfig w = (inr config, w) ->
  nullish config = false ->
  indexOf "--test" (argv w) = Some index ->
  nth_error (argv w) (index + 1) = Some selector ->
  selectorMode selector = Some selected ->
  exists next w2 w',
    setup config w = (inr next, w2) /\
    main w = (inr tt, w') /\
    trace w' = trace w2 ++ update_events selected /\
    applied (trace w') =
      applied (trace w) ++ [opposite (state next); selected] /\
    armed (trace w') = armed (trace w) /\
    timers w' = timers w /\
    (timers w = [] -> forall lates, eventLoop lates w' = (inr tt, w')).
Proof.
  intros Hload Hc Hidx Hsel Hmode.
  eexists; eexists; eexists.
  split; [apply (setup_run _ _ Hc)|].
  assert (Hmain : main w =
            update selected
              (set_oracle_calls
                 (set_trace w
                    (trace w ++ init_events
                       ++ [starting_log (state (planned config (clock w)))]
                       ++ update_events
                            (opposite (state (planned config (clock w))))))
                 (oracle_calls w ++ plannedCalls config (clock w)))).
  { unfold main, bind. rewrite Hload, (setup_run _ _ Hc).
    cbn [argv set_trace set_oracle_calls].
    rewrite (indexOf_includes _ _ _ Hidx), Hidx, Hsel.
    unfold selectorMode in Hmode. unfold strict_eq.
    destruct (String.eqb selector "0").
    - injection Hmode as <-. reflexivity.
    - destruct (String.eqb selector "1"); [|discriminate Hmode].
      injection Hmode as <-. reflexivity. }
  rewrite Hmain, update_run.
  split; [reflexivity|].
  cbn [clock trace timers set_trace set_oracle_calls].
  split; [reflexivity|].
  split.
  { rewrite !applied_app, !applied_update_events.
    destruct (state (planned config (clock w)));
      simpl; rewrite <- app_assoc; reflexivity. }
  split.
  { rewrite !armed_app, !armed_update_events.
    destruct (state (planned config (clock w)));
      simpl; rewrite !app_nil_r; reflexivity. }
  split; [reflexivity|].
  intros Hno lates. apply eventLoop_no_timer. exact Hno.
Qed.


Lemma timer_callback_run (t : Timer) (w : World) :
  nullish (timer_config t) = false ->
  let nextMode := planned (timer_config t) (clock w) in
  timer_callback t w =
    nextLoop (timer_config t) nextMode
      (set_oracle_calls
         (set_trace w (trace w ++ update_events (state (timer_nextMode t))))
         (oracle_calls w ++ plannedCalls (timer_config t) (clock w))).
Proof.
  intros Hc nextMode. unfold timer_callback, bind.
  rewrite update_run, (nextUpdate_run _ _ Hc). reflexivity.
Qed.


(** ** Further properties of the mode change and the start-up *)

Lemma hardware_app (tr tr' : list Event) :
  hardware (tr ++ tr') = hardware_from (hardware tr) tr'.
Proof. unfold hardware, hardware_from. apply fold_left_app. Qed.

(** X1: whatever was written before, [update] leaves the multiplexer and
    GPIO4 as the mode demands (byte 1 and LOW for Colour, byte 2 and HIGH
    for NoIR) and does not touch GPIO17; it changes nothing of the world
    but the trace. *)
Theorem update_sets_hardware (mode : CameraMode) (w : World) :
  exists w',
    update mode w = (inr tt, w') /\
    mux (hardware (trace w')) = Some (mode_byte mode) /\
    gpio4 (hardware (trace w')) = Some (mode_level mode) /\
    gpio17 (hardware (trace w')) = gpio17 (hardware (trace w)) /\
    set_trace w' (trace w) = w.
Proof.
  rewrite update_run. eexists. split; [reflexivity|].
  cbn [trace set_trace]. rewrite hardware_app.
  destruct mode; cbn; repeat split; destruct w; reflexivity.
Qed.

(** X2: after [setup], for a configuration whose properties can be read,
    the hardware selects the camera opposite to the planned state and
    GPIO17 is LOW, whatever the hardware was before. *)
Theorem setup_leaves_hardware (config : Config) (w : World) :
  nullish config = false ->
  exists next w',
    setup config w = (inr next, w') /\
    fst (nextUpdate config w) = inr next /\
    hardware (trace w') =
      mkHardware (Some (mode_byte (opposite (state next))))
                 (Some (mode_level (opposite (state next))))
                 (Some LOW).
Proof.
  intros Hc. rewrite (setup_run _ _ Hc), (nextUpdate_run _ _ Hc).
  eexists; eexists. split; [reflexivity|]. split; [reflexivity|].
  cbn [trace set_trace set_oracle_calls fst]. rewrite hardware_app.
  destruct (state (planned config (clock w))); reflexivity.
Qed.

(** X3: on a day whose events come in the order sunrise, sunset, next
    sunrise, next sunset, [setup] started at [now] applies Colour exactly
    when now lies after the sunrise and not after the sunset of the day,
    and NoIR otherwise (before or at the sunrise, or after the sunset). *)
Theorem startup_mode_by_daylight
    (config : Config) (w : World) (sr0 ss0 sr1 ss1 : Z) :
  nullish config = false ->
  sunriseOn config (ValidDate (clock w)) = ValidDate sr0 ->
  sunsetOn config (ValidDate (clock w)) = ValidDate ss0 ->
  sunriseOn config (tomorrowOf (clock w)) = ValidDate sr1 ->
  sunsetOn config (tomorrowOf (clock w)) = ValidDate ss1 ->
  sr0 < ss0 -> ss0 < sr1 -> sr1 < ss1 -> clock w <= sr1 ->
  exists next w',
    setup config w = (inr next, w') /\
    applied (trace w') =
      applied (trace w) ++
        [if (sr0 <? clock w) && (clock w <=? ss0) then Colour else NoIR] /\
    next =
      if clock w <=? sr0 then {| fires := ValidDate sr0; state := Colour |}
      else if clock w <=? ss0
           then {| fires := ValidDate ss0; state := NoIR |}
           else {| fires := ValidDate sr1; state := Colour |}.
Proof.
  intros Hc E0 E1 E2 E3 H01 H12 H23 Hnow.
  rewrite (setup_run _ _ Hc). cbv zeta.
  eexists; eexists. split; [reflexivity|].
  cbn [trace set_trace set_oracle_calls].
  rewrite !applied_app, applied_update_events.
  assert (Hp : planned config (clock w) =
               if clock w <=? sr0
               then {| fires := ValidDate sr0; state := Colour |}
               else if clock w <=? ss0
                    then {| fires := ValidDate ss0; state := NoIR |}
                    else {| fires := ValidDate sr1; state := Colour |}).
  { unfold planned, rolledSunrise, rolledSunset, Date_gt.
    rewrite E0, E1, E2, E3. simpl.
    destruct (Z.leb_spec (clock w) sr0); destruct (Z.leb_spec (clock w) ss0);
      destruct (Z.ltb_spec sr0 (clock w));
      destruct (Z.ltb_spec ss0 (clock w)); try lia; simpl;
      repeat match goal with
             | |- context [?a <? ?b] =>
                 destruct (Z.ltb_spec a b); try lia; simpl
             end; reflexivity. }
  rewrite Hp. split; [|reflexivity].
  destruct (Z.leb_spec (clock w) sr0); destruct (Z.leb_spec (clock w) ss0);
    destruct (Z.ltb_spec sr0 (clock w)); try lia; simpl;
    destruct (applied (trace w)); reflexivity.
Qed.

(** X4: under a regular oracle the correction pass changes nothing: the
    planner returns the earlier of the two candidates, the sunrise (and
    Colour) when it is strictly earlier, the sunset (and NoIR) otherwise,
    also when the two coincide. *)
Theorem regular_oracle_gives_earliest (config : Config) (w : World) :
  nullish config = false ->
  oracle_regular config (clock w) ->
  exists sr ss w',
    rolledSunrise config (clock w) = ValidDate sr /\
    rolledSunset config (clock w) = ValidDate ss /\
    nextUpdate config w =
      (inr {| fires := ValidDate (Z.min sr ss);
              state := if sr <? ss then Colour else NoIR |}, w').
Proof.
  intros Hc (sr0 & ss0 & sr1 & ss1 & E0 & E1 & E2 & E3 & Hsr & Hss).
  rewrite (nextUpdate_run _ _ Hc).
  unfold planned, rolledSunrise, rolledSunset, Date_gt.
  rewrite E0, E1, E2, E3. simpl.
  destruct (Z.ltb_spec sr0 (clock w)); destruct (Z.ltb_spec ss0 (clock w));
    eexists; eexists; eexists;
    (split; [reflexivity|]); (split; [reflexivity|]); simpl;
    repeat match goal with
           | |- context [?a <? ?b] =>
               destruct (Z.ltb_spec a b); try lia; simpl
           end;
    repeat f_equal; lia.
Qed.

(** ** Further properties of the configuration and of process entry *)

(** X5: the path of the configuration file is the value of the
    environment variable CONFIG when it is set and not empty, and
    /boot/camera.json when it is unset or empty; [loadConfig] returns what
    the file at that path parses to. *)
Theorem loadConfig_reads_configured_path (w : World) :
  (forall p content v,
     env_CONFIG w = Some p -> p <> EmptyString ->
     files w p = Some content -> JSON_parse content = Some v ->
     loadConfig w = (inr v, w)) /\
  (forall content v,
     env_CONFIG w = None \/ env_CONFIG w = Some EmptyString ->
     files w "/boot/camera.json" = Some content ->
     JSON_parse content = Some v ->
     loadConfig w = (inr v, w)).
Proof.
  split.
  - intros p content v Henv Hp Hfile Hparse.
    rewrite loadConfig_run. unfold CONFIG_PATH. rewrite Henv.
    destruct (String.eqb_spec p EmptyString) as [->|_]; [contradiction|].
    rewrite Hfile, Hparse. reflexivity.
  - intros content v Henv Hfile Hparse.
    rewrite loadConfig_run. unfold CONFIG_PATH.
    destruct Henv as [-> | ->]; simpl; rewrite Hfile, Hparse; reflexivity.
Qed.

(** X6: for a configuration whose properties can be read, every oracle
    call of the planner passes the values found under the keys latitude
    and longitude of an object, whatever they are, and [undefined] twice
    for a configuration that is not an object; the planner does not
    throw. *)
Theorem planner_passes_coordinates (config : Config) (w : World) :
  nullish config = false ->
  exists u w' calls,
    nextUpdate config w = (inr u, w') /\
    oracle_calls w' = oracle_calls w ++ calls /\
    (2 <= List.length calls <= 4)%nat /\
    Forall
      (fun c =>
         call_coordinates c =
           match config with
           | JObject props =>
               (lookup "latitude" props, lookup "longitude" props)
           | _ => (JUndefined, JUndefined)
           end)
      calls.
Proof.
  intros Hc. rewrite (nextUpdate_run _ _ Hc).
  eexists; eexists; exists (plannedCalls config (clock w)).
  split; [reflexivity|]. split; [reflexivity|].
  unfold plannedCalls.
  destruct (Date_lt (sunriseOn config (ValidDate (clock w))) _);
    destruct (Date_lt (sunsetOn config (ValidDate (clock w))) _);
    (split; [simpl; lia|]);
    destruct config; try discriminate Hc; simpl;
    repeat constructor.
Qed.

(** X7: when the configuration file parses to [null], [main] ends with a
    TypeError, with or without the test flag: the initial writes of
    [setup] are done, no mode is applied, the oracle is not called and no
    timer is armed. *)
Theorem main_null_configuration_throws
    (w : World) (content : string) (config : Config) :
  files w (CONFIG_PATH w) = Some content ->
  JSON_parse content = Some config ->
  nullish config = true ->
  main w = (inl TypeError, set_trace w (trace w ++ init_events)) /\
  applied (trace w ++ init_events) = applied (trace w) /\
  armed (trace w ++ init_events) = armed (trace w).
Proof.
  intros Hfile Hparse Hc. split.
  - unfold main, bind at 1. rewrite loadConfig_run, Hfile, Hparse.
    unfold bind at 1. unfold setup, bind, emit.
    cbn [set_trace trace clock env_CONFIG files argv oracle_calls timers].
    rewrite (nextUpdate_throws _ _ Hc).
    unfold set_trace, init_events; cbn. rewrite <- !app_assoc. reflexivity.
  - rewrite applied_app, armed_app. simpl. rewrite !app_nil_r.
    split; reflexivity.
Qed.

(** X8: when the configuration file cannot be read or does not parse,
    [main] without the test flag starts for London: every oracle call
    passes latitude 51.5074 and longitude 0.1278, the start-up mode is
    applied, and one timer is armed, whose closure holds the default
    configuration and the planner's answer. *)
Theorem main_starts_with_default_location (w : World) :
  (files w (CONFIG_PATH w) = None \/
   exists content,
     files w (CONFIG_PATH w) = Some content /\
     JSON_parse content = None) ->
  includes "--test" (argv w) = false ->
  exists w' next calls,
    main w = (inr tt, w') /\
    fst (nextUpdate defaultConfig w) = inr next /\
    oracle_calls w' = oracle_calls w ++ calls /\
    Forall
      (fun c =>
         call_coordinates c =
           (JNumber 51.5074%float, JNumber 0.1278%float))
      calls /\
    applied (trace w') = applied (trace w) ++ [opposite (state next)] /\
    timers w' =
      timers w ++
        [mkTimer (clock w + timer_delay (loop_delay next (clock w)))
                 defaultConfig next].
Proof.
  intros Hfail Hargs.
  assert (Hload : loadConfig w = (inr defaultConfig, w)).
  { rewrite loadConfig_run.
    destruct Hfail as [-> | (content & -> & ->)]; reflexivity. }
  assert (Hc : nullish defaultConfig = false) by reflexivity.
  unfold main, bind. rewrite Hload, (setup_run _ _ Hc).
  cbn [argv set_trace set_oracle_calls]. rewrite Hargs, nextLoop_run.
  rewrite (nextUpdate_run _ _ Hc).
  eexists; eexists; exists (plannedCalls defaultConfig (clock w)).
  split; [reflexivity|]. split; [reflexivity|].
  cbn [clock trace timers oracle_calls set_trace set_oracle_calls
       set_timers].
  split; [reflexivity|].
  split.
  { unfold plannedCalls.
    destruct (Date_lt (sunriseOn defaultConfig (ValidDate (clock w))) _);
      destruct (Date_lt (sunsetOn defaultConfig (ValidDate (clock w))) _);
      simpl; repeat constructor. }
  split; [|reflexivity].
  rewrite !applied_app, applied_update_events.
  destruct (state (planned defaultConfig (clock w)));
    simpl; rewrite app_nil_r; reflexivity.
Qed.

(** X9: with the test flag but without a selector that is 0 or 1 (a
    missing one included), [main] does what [setup] does and nothing
    more: the only mode applied is the start-up mode, and no timer is
    armed, so the event loop has nothing to run. *)
Theorem test_mode_unknown_selector
    (config : Config) (w : World) (index : nat) :
  loadConfig w = (inr config, w) ->
  nullish config = false ->
  indexOf "--test" (argv w) = Some index ->
  strict_eq (nth_error (argv w) (index + 1)) "0" = false ->
  strict_eq (nth_error (argv w) (index + 1)) "1" = false ->
  exists next w',
    setup config w = (inr next, w') /\
    main w = (inr tt, w') /\
    applied (trace w') = applied (trace w) ++ [opposite (state next)] /\
    armed (trace w') = armed (trace w) /\
    timers w' = timers w /\
    (timers w = [] -> forall lates, eventLoop lates w' = (inr tt, w')).
Proof.
  intros Hload Hc Hidx H0 H1.
  eexists; eexists. split; [apply (setup_run _ _ Hc)|].
  split.
  { unfold main, bind. rewrite Hload, (setup_run _ _ Hc).
    cbn [argv set_trace set_oracle_calls].
    rewrite (indexOf_includes _ _ _ Hidx), Hidx, H0, H1. reflexivity. }
  cbn [clock trace timers set_trace set_oracle_calls].
  split.
  { rewrite !applied_app, applied_update_events.
    destruct (state (planned config (clock w))); reflexivity. }
  split.
  { rewrite !armed_app, armed_update_events.
    destruct (state (planned config (clock w)));
      simpl; rewrite app_nil_r; reflexivity. }
  split; [reflexivity|].
  intros Hno lates. apply eventLoop_no_timer. exact Hno.
Qed.

(** ** Further properties of the timer loop *)

(** One turn of the event loop with a single timer pending. *)
Lemma fire_single (late d : Z) (config : Config) (t : Update) (w : World) :
  nullish config = false ->
  timers w = [mkTimer d config t] ->
  let now' := Z.max (clock w) d + Z.max 0 late in
  let nextMode := planned config now' in
  fire late w =
    Some (inr tt,
          mkWorld now' (env_CONFIG w) (files w) (argv w)
            (trace w ++ update_events (state t) ++
               [LogFiring (state nextMode) (fires nextMode);
                LogIn (num_sub (getTime (fires nextMode)) now');
                SetTimeout (loop_delay nextMode now')])
            (oracle_calls w ++ plannedCalls config now')
            [mkTimer (now' + timer_delay (loop_delay nextMode now'))
                     config nextMode]).
Proof.
  intros Hc Ht now' nextMode. unfold fire. rewrite Ht.
  cbn [earliest due]. rewrite timer_callback_run by exact Hc.
  cbn [timer_config timer_nextMode clock set_clock set_timers set_trace
       trace oracle_calls].
  fold now'. fold nextMode. rewrite nextLoop_run.
  unfold set_timers, set_trace, set_oracle_calls; cbn.
  rewrite <- !app_assoc. reflexivity.
Qed.

(** X10: for a deadline [f] whose delay [f - now + 1000] lies between 1
    and 2^31 - 1, the timer armed by [nextLoop] is due one second after
    [f], and its callback, which applies the state of the update, runs at
    [f + 1000] or later by the lateness of the event loop, never before. *)
Theorem loop_waits_one_second_past_deadline
    (config : Config) (t : Update) (f : Z) (w0 : World) (late : Z) :
  nullish config = false ->
  timers w0 = [] ->
  fires t = ValidDate f ->
  1 <= f - clock w0 + 1000 <= 2147483647 ->
  exists w1 w2,
    nextLoop config t w0 = (inr tt, w1) /\
    timers w1 = [mkTimer (f + 1000) config t] /\
    fire late w1 = Some (inr tt, w2) /\
    clock w2 = f + 1000 + Z.max 0 late /\
    applied (trace w2) = applied (trace w0) ++ [state t].
Proof.
  intros Hc Hno Hf Hrange.
  assert (Hdelay : loop_delay t (clock w0) = Some (f - clock w0 + 1000)).
  { unfold loop_delay. rewrite Hf. reflexivity. }
  assert (Htd : timer_delay (Some (f - clock w0 + 1000))
                = f - clock w0 + 1000).
  { unfold timer_delay.
    destruct (Z.leb_spec 1 (f - clock w0 + 1000)); [|lia].
    destruct (Z.leb_spec (f - clock w0 + 1000) 2147483647); [|lia].
    reflexivity. }
  rewrite nextLoop_run, Hno, Hdelay, Htd. cbn [app].
  replace (clock w0 + (f - clock w0 + 1000)) with (f + 1000) by lia.
  eexists; eexists. split; [reflexivity|].
  cbn [timers set_timers]. split; [reflexivity|].
  split; [apply (fire_single late (f + 1000) config t); [exact Hc|reflexivity]|].
  cbn [clock trace set_timers set_trace].
  split; [lia|].
  rewrite !applied_app, applied_update_events. simpl.
  rewrite !app_nil_r. reflexivity.
Qed.

(** X11: for a deadline more than 999 milliseconds in the past the delay
    is below 1, and the timer armed by [nextLoop] is due one millisecond
    after it is armed: the overdue state is applied at once. *)
Theorem loop_overdue_deadline_fires_at_once
    (config : Config) (t : Update) (f : Z) (w0 : World) :
  nullish config = false ->
  timers w0 = [] ->
  fires t = ValidDate f ->
  f - clock w0 + 1000 < 1 ->
  exists w1 w2,
    nextLoop config t w0 = (inr tt, w1) /\
    armed (trace w1) = armed (trace w0) ++ [Some (f - clock w0 + 1000)] /\
    timers w1 = [mkTimer (clock w0 + 1) config t] /\
    fire 0 w1 = Some (inr tt, w2) /\
    clock w2 = clock w0 + 1 /\
    applied (trace w2) = applied (trace w0) ++ [state t].
Proof.
  intros Hc Hno Hf Hrange.
  assert (Hdelay : loop_delay t (clock w0) = Some (f - clock w0 + 1000)).
  { unfold loop_delay. rewrite Hf. reflexivity. }
  assert (Htd : timer_delay (Some (f - clock w0 + 1000)) = 1).
  { unfold timer_delay.
    destruct (Z.leb_spec 1 (f - clock w0 + 1000)); [lia|reflexivity]. }
  rewrite nextLoop_run, Hno, Hdelay, Htd. cbn [app].
  eexists; eexists. split; [reflexivity|].
  cbn [timers trace set_timers set_trace].
  split; [rewrite armed_app; reflexivity|].
  split; [reflexivity|].
  split;
    [apply (fire_single 0 (clock w0 + 1) config t); [exact Hc|reflexivity]|].
  cbn [clock trace set_timers set_trace].
  split; [lia|].
  rewrite !applied_app, applied_update_events. simpl.
  rewrite !app_nil_r. reflexivity.
Qed.

(** X12: for a deadline so far ahead that the delay exceeds 2^31 - 1
    milliseconds (about 24.8 days), the timer armed by [nextLoop] is due
    one millisecond after it is armed, and the state of the update is
    applied then, before its deadline. *)
Theorem loop_distant_deadline_fires_early
    (config : Config) (t : Update) (f : Z) (w0 : World) :
  nullish config = false ->
  timers w0 = [] ->
  fires t = ValidDate f ->
  2147483647 < f - clock w0 + 1000 ->
  exists w1 w2,
    nextLoop config t w0 = (inr tt, w1) /\
    timers w1 = [mkTimer (clock w0 + 1) config t] /\
    fire 0 w1 = Some (inr tt, w2) /\
    clock w2 = clock w0 + 1 /\
    clock w2 < f /\
    applied (trace w2) = applied (trace w0) ++ [state t].
Proof.
  intros Hc Hno Hf Hrange.
  assert (Hdelay : loop_delay t (clock w0) = Some (f - clock w0 + 1000)).
  { unfold loop_delay. rewrite Hf. reflexivity. }
  assert (Htd : timer_delay (Some (f - clock w0 + 1000)) = 1).
  { unfold timer_delay.
    destruct (Z.leb_spec 1 (f - clock w0 + 1000)); [|reflexivity].
    destruct (Z.leb_spec (f - clock w0 + 1000) 2147483647); [lia|].
    reflexivity. }
  rewrite nextLoop_run, Hno, Hdelay, Htd. cbn [app].
  eexists; eexists. split; [reflexivity|].
  cbn [timers set_timers]. split; [reflexivity|].
  split;
    [apply (fire_single 0 (clock w0 + 1) config t); [exact Hc|reflexivity]|].
  cbn [clock trace set_timers set_trace].
  split; [lia|]. split; [lia|].
  rewrite !applied_app, applied_update_events. simpl.
  rewrite !app_nil_r. reflexivity.
Qed.

(** X13: as long as the mode change and the oracle return (here they
    always do; a failing driver write would end the process), a loop with
    one timer of [nextLoop] pending keeps exactly one timer pending, for
    the same configuration: each turn applies one mode and arms one
    timer, and after a turn the pending timer holds the planner's answer
    for the instant of that turn and is due that instant plus the delay
    the event loop makes of [fires - now + 1000]. *)
Theorem eventLoop_keeps_one_timer (config : Config) (lates : list Z) :
  nullish config = false ->
  forall (w : World) (d : Z) (t : Update),
  timers w = [mkTimer d config t] ->
  exists w' d' t',
    eventLoop lates w = (inr tt, w') /\
    timers w' = [mkTimer d' config t'] /\
    (lates <> [] ->
     fst (nextUpdate config w') = inr t' /\
     d' = clock w' + timer_delay (loop_delay t' (clock w'))) /\
    List.length (applied (trace w')) =
      (List.length (applied (trace w)) + List.length lates)%nat /\
    List.length (armed (trace w')) =
      (List.length (armed (trace w)) + List.length lates)%nat.
Proof.
  intros Hc. induction lates as [|late lates IH]; intros w d t Ht.
  - exists w, d, t. simpl. rewrite !Nat.add_0_r.
    split; [reflexivity|]. split; [exact Ht|].
    split; [intros E; contradiction E; reflexivity|].
    split; reflexivity.
  - simpl. rewrite (fire_single late d config t w Hc Ht). cbv zeta.
    match goal with
    | |- context [eventLoop lates ?w1] =>
        destruct (IH w1 _ _ eq_refl)
          as (w' & d' & t' & Hrun & Htimers & Hnext & Happ & Harm)
    end.
    exists w', d', t'. split; [exact Hrun|]. split; [exact Htimers|].
    cbn [trace clock] in Happ, Harm.
    rewrite !applied_app, applied_update_events, !length_app in Happ.
    rewrite !armed_app, armed_update_events, !length_app in Harm.
    simpl in Happ, Harm.
    split.
    { intros _. destruct lates as [|late' lates'].
      - simpl in Hrun. injection Hrun as <-.
        cbn [timers] in Htimers. injection Htimers as <- <-.
        cbn [clock]. split; [|reflexivity].
        rewrite (nextUpdate_run _ _ Hc). reflexivity.
      - apply Hnext. discriminate. }
    split; lia.
Qed.

(** X14: where the oracle answers every query with an invalid date, the
    planner returns an invalid deadline with the state NoIR after the two
    queries for the current day, and the loop never comes to rest: every
    turn arms the next timer with a NaN delay, due one millisecond later,
    and from the second turn on every turn applies NoIR. *)
Theorem invalid_oracle_spins (config : Config) (lates : list Z) :
  nullish config = false ->
  (forall date, sunriseOn config date = InvalidDate) ->
  (forall date, sunsetOn config date = InvalidDate) ->
  forall (w : World) (d : Z) (t : Update),
  timers w = [mkTimer d config t] ->
  exists w' d' t',
    eventLoop lates w = (inr tt, w') /\
    timers w' = [mkTimer d' config t'] /\
    (lates <> [] ->
     d' = clock w' + 1 /\
     t' = {| fires := InvalidDate; state := NoIR |} /\
     fst (nextUpdate config w') = inr t') /\
    armed (trace w') = armed (trace w) ++ repeat None (List.length lates) /\
    applied (trace w') =
      applied (trace w) ++
        match lates with
        | [] => []
        | _ :: rest => state t :: repeat NoIR (List.length rest)
        end.
Proof.
  intros Hc Hsr Hss.
  assert (Hplan : forall now,
            planned config now = {| fires := InvalidDate; state := NoIR |}).
  { intros now. unfold planned, rolledSunrise, rolledSunset, Date_gt.
    rewrite !Hsr, !Hss. reflexivity. }
  induction lates as [|late lates IH]; intros w d t Ht.
  - exists w, d, t. simpl. rewrite !app_nil_r.
    split; [reflexivity|]. split; [exact Ht|].
    split; [intros H; contradiction H; reflexivity|].
    split; reflexivity.
  - simpl. rewrite (fire_single late d config t w Hc Ht). cbv zeta.
    rewrite Hplan.
    match goal with
    | |- context [eventLoop lates ?w1] =>
        destruct (IH w1 _ _ eq_refl)
          as (w' & d' & t' & Hrun & Htimers & Hnext & Harm & Happ)
    end.
    exists w', d', t'. split; [exact Hrun|]. split; [exact Htimers|].
    cbn [trace clock state fires] in Harm, Happ.
    split.
    { intros _. destruct lates as [|late' lates'].
      - simpl in Hrun. injection Hrun as <-.
        cbn [timers] in Htimers. injection Htimers as <- <-.
        cbn [clock]. split; [reflexivity|]. split; [reflexivity|].
        rewrite (nextUpdate_run _ _ Hc), Hplan. reflexivity.
      - apply Hnext. discriminate. }
    split.
    { rewrite Harm, !armed_app, armed_update_events. cbn.
      rewrite <- !app_assoc. reflexivity. }
    rewrite Happ, !applied_app, applied_update_events. cbn.
    rewrite <- !app_assoc. cbn.
    destruct lates; reflexivity.
Qed.

End Program.

(** ** The sample site: scenarios *)

Local Abbreviation sample_nextUpdate :=
  (nextUpdate Sample.getSunrise Sample.getSunset Sample.plusOneDay).
Local Abbreviation sample_main :=
  (main Sample.JSON_parse Sample.getSunrise Sample.getSunset
        Sample.plusOneDay).
Local Abbreviation sample_regular :=
  (oracle_regular Sample.getSunrise Sample.getSunset Sample.plusOneDay).

(** At 06:00 the next event is the sunrise of 06:30. *)
Example scenario_before_sunrise :
  fst (sample_nextUpdate defaultConfig (Sample.world 21600000 [])) =
    inr {| fires := ValidDate 23400000; state := Colour |}.
Proof. vm_compute. reflexivity. Qed.

(** At 19:00 both events of the day are over: the next one is the sunrise
    of the following day. *)
Example scenario_after_sunset :
  fst (sample_nextUpdate defaultConfig (Sample.world 68400000 [])) =
    inr {| fires := ValidDate (86400000 + 23400000); state := Colour |}.
Proof. vm_compute. reflexivity. Qed.

(** At noon the next event is the sunset. *)
Example scenario_midday :
  fst (sample_nextUpdate defaultConfig (Sample.world 43200000 [])) =
    inr {| fires := ValidDate 64800000; state := NoIR |}.
Proof. vm_compute. reflexivity. Qed.

(** A configuration file that holds [null] is loaded as [null], and the
    planner then throws on its first property access. *)
Example null_configuration :
  loadConfig Sample.JSON_parse (Sample.worldWithFile "null") =
    (inr JNull, Sample.worldWithFile "null") /\
  fst (sample_nextUpdate JNull (Sample.worldWithFile "null")) =
    inl TypeError.
Proof. split; reflexivity. Qed.

(** A configuration file that holds a number is loaded as that number. *)
Example number_configuration :
  loadConfig Sample.JSON_parse (Sample.worldWithFile "42") =
    (inr (JNumber 42%float), Sample.worldWithFile "42").
Proof. reflexivity. Qed.

(** A configuration file that does not parse gives London. *)
Example broken_configuration :
  loadConfig Sample.JSON_parse (Sample.worldWithFile "{latitude:") =
    (inr defaultConfig, Sample.worldWithFile "{latitude:").
Proof. reflexivity. Qed.

(** An oracle that is not regular: every answer of [Stale] lies before
    now, the correction pass picks the later one, and a second run later on
    picks the same instant again. *)
Example stale_oracle_repeats :
  fst (nextUpdate Stale.getSunrise Stale.getSunset Sample.plusOneDay
         defaultConfig (Sample.world 100 [])) =
    inr {| fires := ValidDate 20; state := NoIR |} /\
  fst (nextUpdate Stale.getSunrise Stale.getSunset Sample.plusOneDay
         defaultConfig (Sample.world 2000 [])) =
    inr {| fires := ValidDate 20; state := NoIR |}.
Proof. split; vm_compute; reflexivity. Qed.

Lemma sample_regular_at (now sr0 ss0 sr1 ss1 : Z) :
  Sample.getSunrise JUndefined JUndefined (ValidDate now) = ValidDate sr0 ->
  Sample.getSunset JUndefined JUndefined (ValidDate now) = ValidDate ss0 ->
  Sample.getSunrise JUndefined JUndefined
    (ValidDate (Sample.plusOneDay now)) = ValidDate sr1 ->
  Sample.getSunset JUndefined JUndefined
    (ValidDate (Sample.plusOneDay now)) = ValidDate ss1 ->
  now <= sr1 -> now <= ss1 ->
  forall config, sample_regular config now.
Proof.
  intros E0 E1 E2 E3 H1 H2 config.
  exists sr0, ss0, sr1, ss1. repeat split; assumption.
Qed.

(** ** Instances of the theorems *)



Lemma correction_case_takes_alternate_event_witness :
  exists u w' calls,
    nextUpdate Stale.getSunrise Stale.getSunset Sample.plusOneDay
      defaultConfig (Sample.world 100 []) = (inr u, w') /\
    oracle_calls w' = [] ++ calls /\
    u = {| fires := ValidDate 20; state := NoIR |} /\
    In (CallSunset (JNumber 51.5074%float) (JNumber 0.1278%float)
          (Some (ValidDate (100 + Sample.day))))
       calls.
Proof.
  apply (correction_case_takes_alternate_event Stale.getSunrise
           Stale.getSunset Sample.plusOneDay defaultConfig
           (Sample.world 100 [])); reflexivity.
Defined.

Lemma requeries_strictly_before_now_witness :
  exists u w' calls,
    sample_nextUpdate defaultConfig (Sample.world 68400000 []) = (inr u, w')
    /\ oracle_calls w' = [] ++ calls
    /\ calls =
         [CallSunrise (JNumber 51.5074%float) (JNumber 0.1278%float) None;
          CallSunset (JNumber 51.5074%float) (JNumber 0.1278%float) None;
          CallSunrise (JNumber 51.5074%float) (JNumber 0.1278%float)
            (Some (ValidDate (68400000 + Sample.day)));
          CallSunset (JNumber 51.5074%float) (JNumber 0.1278%float)
            (Some (ValidDate (68400000 + Sample.day)))].
Proof.
  destruct (requeries_strictly_before_now Sample.getSunrise Sample.getSunset
              Sample.plusOneDay defaultConfig (Sample.world 68400000 [])
              eq_refl)
    as (u & w' & calls & H & Hcalls & Hlist & _).
  exists u, w', calls. repeat split; assumption.
Defined.

(** At the very instant of the sunrise the planner makes the two queries
    for the current day and no other. *)
Lemma no_requery_at_equality :
  ~ requeries_at_or_before_now Sample.getSunrise Sample.getSunset
      Sample.plusOneDay defaultConfig (Sample.world 23400000 []).
Proof.
  intros (u & w' & H & Hsr & _).
  rewrite nextUpdate_run in H by reflexivity.
  injection H as _ <-.
  specialize (Hsr 23400000 eq_refl ltac:(simpl; lia)).
  vm_compute in Hsr.
  destruct Hsr as [Hsr|[Hsr|[]]]; discriminate Hsr.
Qed.

Lemma correction_pass_flips_witness :
  exists u w',
    nextUpdate Stale.getSunrise Stale.getSunset Sample.plusOneDay
      defaultConfig (Sample.world 100 []) = (inr u, w') /\
    u = {| fires := ValidDate 20; state := NoIR |}.
Proof.
  destruct (correction_pass_flips Stale.getSunrise Stale.getSunset
              Sample.plusOneDay defaultConfig (Sample.world 100 []) eq_refl)
    as (u & w' & H & Hflip & _).
  exists u, w'. split; [exact H|].
  apply Hflip; reflexivity.
Defined.

Lemma nextUpdate_deterministic_witness :
  exists r calls,
    sample_nextUpdate defaultConfig (Sample.world 43200000 []) =
      (r, set_oracle_calls (Sample.world 43200000 []) ([] ++ calls)) /\
    sample_nextUpdate defaultConfig
      (Sample.world 43200000 ["node"; "index.js"; "--test"; "1"]) =
      (r, set_oracle_calls
            (Sample.world 43200000 ["node"; "index.js"; "--test"; "1"])
            ([] ++ calls)).
Proof.
  apply (nextUpdate_deterministic Sample.getSunrise Sample.getSunset
           Sample.plusOneDay defaultConfig
           (Sample.world 43200000 [])
           (Sample.world 43200000 ["node"; "index.js"; "--test"; "1"])).
  reflexivity.
Defined.

Lemma startup_applies_opposite_witness :
  exists next w2,
    setup Sample.getSunrise Sample.getSunset Sample.plusOneDay
      defaultConfig (Sample.world 43200000 []) = (inr next, w2) /\
    applied (trace w2) = [opposite (state next)].
Proof.
  destruct (startup_applies_opposite Sample.JSON_parse Sample.getSunrise
              Sample.getSunset Sample.plusOneDay defaultConfig
              (Sample.world 43200000 []) eq_refl)
    as (next & w1 & w2 & _ & H & _ & Happ & _).
  exists next, w2. split; [exact H | exact Happ].
Defined.

Lemma test_mode_after_setup_witness :
  exists w',
    sample_main (Sample.world 0 ["node"; "index.js"; "--test"; "1"]) =
      (inr tt, w') /\
    timers w' = [] /\
    exists next, applied (trace w') = [opposite (state next); NoIR].
Proof.
  destruct (test_mode_after_setup Sample.JSON_parse Sample.getSunrise
              Sample.getSunset Sample.plusOneDay defaultConfig
              (Sample.world 0 ["node"; "index.js"; "--test"; "1"])
              2%nat "1" NoIR eq_refl eq_refl eq_refl eq_refl eq_refl)
    as (next & w2 & w' & _ & Hmain & _ & Happ & _ & Htimers & _).
  exists w'. split; [exact Hmain|]. split; [exact Htimers|].
  exists next. exact Happ.
Defined.

(** In test mode with the selector 0 at midnight, the run applies NoIR (the
    start-up mode) and then Colour. *)
Lemma test_mode_applies_twice :
  ~ test_mode_applies_only_selected Sample.JSON_parse Sample.getSunrise
      Sample.getSunset Sample.plusOneDay
      (Sample.world 0 ["node"; "index.js"; "--test"; "0"]) Colour.
Proof.
  intros (w' & Hmain & Happ & _).
  vm_compute in Hmain. injection Hmain as <-.
  vm_compute in Happ. discriminate Happ.
Qed.


(** At the onset of the polar night the planner answers noon with the
    sunset of the day. *)
Example arctic_last_sunset :
  fst (nextUpdate Arctic.getSunrise Arctic.getSunset Sample.plusOneDay
         defaultConfig (Sample.world 43200000 [])) =
    inr {| fires := ValidDate 64800000; state := NoIR |}.
Proof. vm_compute. reflexivity. Qed.


(** ** Instances of the further properties *)

Lemma setup_leaves_hardware_witness :
  exists next w',
    setup Sample.getSunrise Sample.getSunset Sample.plusOneDay
      defaultConfig (Sample.world 43200000 []) = (inr next, w') /\
    hardware (trace w') = mkHardware (Some 1) (Some LOW) (Some LOW).
Proof.
  destruct (setup_leaves_hardware Sample.getSunrise Sample.getSunset
              Sample.plusOneDay defaultConfig (Sample.world 43200000 [])
              eq_refl)
    as (next & w' & Hsetup & Hnext & Hhw).
  exists next, w'. split; [exact Hsetup|].
  vm_compute in Hnext. injection Hnext as <-. exact Hhw.
Defined.

Lemma startup_mode_by_daylight_witness :
  exists next w',
    setup Sample.getSunrise Sample.getSunset Sample.plusOneDay
      defaultConfig (Sample.world 43200000 []) = (inr next, w') /\
    applied (trace w') = [Colour] /\
    next = {| fires := ValidDate 64800000; state := NoIR |}.
Proof.
  apply (startup_mode_by_daylight Sample.getSunrise Sample.getSunset
           Sample.plusOneDay defaultConfig (Sample.world 43200000 [])
           23400000 64800000 109800000 151200000);
    try reflexivity; simpl; lia.
Defined.

Lemma regular_oracle_gives_earliest_witness :
  exists sr ss w',
    rolledSunrise Sample.getSunrise Sample.plusOneDay defaultConfig
      43200000 = ValidDate sr /\
    rolledSunset Sample.getSunset Sample.plusOneDay defaultConfig
      43200000 = ValidDate ss /\
    sample_nextUpdate defaultConfig (Sample.world 43200000 []) =
      (inr {| fires := ValidDate (Z.min sr ss);
              state := if sr <? ss then Colour else NoIR |}, w').
Proof.
  apply (regular_oracle_gives_earliest Sample.getSunrise Sample.getSunset
           Sample.plusOneDay defaultConfig (Sample.world 43200000 [])).
  - reflexivity.
  - apply (sample_regular_at 43200000 23400000 64800000
             109800000 151200000); try reflexivity; simpl; lia.
Defined.

Lemma planner_passes_coordinates_witness :
  exists u w' calls,
    sample_nextUpdate (JNumber 42%float) (Sample.world 0 []) = (inr u, w')
    /\ oracle_calls w' = [] ++ calls
    /\ (2 <= List.length calls <= 4)%nat
    /\ Forall (fun c => call_coordinates c = (JUndefined, JUndefined))
              calls.
Proof.
  apply (planner_passes_coordinates Sample.getSunrise Sample.getSunset
           Sample.plusOneDay (JNumber 42%float) (Sample.world 0 [])).
  reflexivity.
Defined.

Lemma main_null_configuration_throws_witness :
  sample_main (Sample.worldWithFile "null") =
    (inl TypeError,
     set_trace (Sample.worldWithFile "null") ([] ++ init_events)) /\
  applied ([] ++ init_events) = [] /\
  armed ([] ++ init_events) = [].
Proof.
  apply (main_null_configuration_throws Sample.JSON_parse Sample.getSunrise
           Sample.getSunset Sample.plusOneDay (Sample.worldWithFile "null")
           "null" JNull); reflexivity.
Defined.

Lemma main_starts_with_default_location_witness :
  exists w' next,
    sample_main (Sample.world 0 ["node"; "index.js"]) = (inr tt, w') /\
    applied (trace w') = [opposite (state next)] /\
    timers w' =
      [mkTimer (0 + timer_delay (loop_delay next 0)) defaultConfig next].
Proof.
  destruct (main_starts_with_default_location Sample.JSON_parse
              Sample.getSunrise Sample.getSunset Sample.plusOneDay
              (Sample.world 0 ["node"; "index.js"])
              (or_introl eq_refl) eq_refl)
    as (w' & next & calls & Hmain & _ & _ & _ & Happ & Htimers).
  exists w', next. repeat split; assumption.
Defined.

Lemma test_mode_unknown_selector_witness :
  exists next w',
    sample_main (Sample.world 0 ["node"; "index.js"; "--test"]) =
      (inr tt, w') /\
    applied (trace w') = [opposite (state next)] /\
    timers w' = [].
Proof.
  destruct (test_mode_unknown_selector Sample.JSON_parse Sample.getSunrise
              Sample.getSunset Sample.plusOneDay defaultConfig
              (Sample.world 0 ["node"; "index.js"; "--test"]) 2%nat
              eq_refl eq_refl eq_refl eq_refl eq_refl)
    as (next & w' & _ & Hmain & Happ & _ & Htimers & _).
  exists next, w'. repeat split; assumption.
Defined.

Lemma loop_waits_one_second_past_deadline_witness :
  exists w1 w2,
    nextLoop defaultConfig {| fires := ValidDate 23400000; state := Colour |}
      (Sample.world 21600000 []) = (inr tt, w1) /\
    timers w1 =
      [mkTimer (23400000 + 1000) defaultConfig
               {| fires := ValidDate 23400000; state := Colour |}] /\
    fire Sample.getSunrise Sample.getSunset Sample.plusOneDay 5 w1 =
      Some (inr tt, w2) /\
    clock w2 = 23400000 + 1000 + Z.max 0 5 /\
    applied (trace w2) = [] ++ [Colour].
Proof.
  apply (loop_waits_one_second_past_deadline Sample.getSunrise
           Sample.getSunset Sample.plusOneDay defaultConfig
           {| fires := ValidDate 23400000; state := Colour |}
           23400000 (Sample.world 21600000 []) 5);
    try reflexivity; simpl; lia.
Defined.

Lemma loop_overdue_deadline_fires_at_once_witness :
  exists w1 w2,
    nextLoop defaultConfig {| fires := ValidDate 0; state := NoIR |}
      (Sample.world 100000 []) = (inr tt, w1) /\
    armed (trace w1) = [] ++ [Some (0 - 100000 + 1000)] /\
    timers w1 =
      [mkTimer (100000 + 1) defaultConfig
               {| fires := ValidDate 0; state := NoIR |}] /\
    fire Sample.getSunrise Sample.getSunset Sample.plusOneDay 0 w1 =
      Some (inr tt, w2) /\
    clock w2 = 100000 + 1 /\
    applied (trace w2) = [] ++ [NoIR].
Proof.
  apply (loop_overdue_deadline_fires_at_once Sample.getSunrise
           Sample.getSunset Sample.plusOneDay defaultConfig
           {| fires := ValidDate 0; state := NoIR |}
           0 (Sample.world 100000 []));
    try reflexivity; simpl; lia.
Defined.

Lemma loop_distant_deadline_fires_early_witness :
  exists w1 w2,
    nextLoop defaultConfig
      {| fires := ValidDate 3000000000; state := Colour |}
      (Sample.world 0 []) = (inr tt, w1) /\
    timers w1 =
      [mkTimer (0 + 1) defaultConfig
               {| fires := ValidDate 3000000000; state := Colour |}] /\
    fire Sample.getSunrise Sample.getSunset Sample.plusOneDay 0 w1 =
      Some (inr tt, w2) /\
    clock w2 = 0 + 1 /\
    clock w2 < 3000000000 /\
    applied (trace w2) = [] ++ [Colour].
Proof.
  apply (loop_distant_deadline_fires_early Sample.getSunrise
           Sample.getSunset Sample.plusOneDay defaultConfig
           {| fires := ValidDate 3000000000; state := Colour |}
           3000000000 (Sample.world 0 []));
    try reflexivity; simpl; lia.
Defined.

Lemma eventLoop_keeps_one_timer_witness :
  exists w' d' t',
    eventLoop Sample.getSunrise Sample.getSunset Sample.plusOneDay
      [0; 0; 0]
      (mkWorld 0 None (fun _ => None) [] [] []
         [mkTimer 23401000 defaultConfig
                  {| fires := ValidDate 23400000; state := Colour |}]) =
      (inr tt, w') /\
    timers w' = [mkTimer d' defaultConfig t'] /\
    fst (sample_nextUpdate defaultConfig w') = inr t' /\
    List.length (applied (trace w')) = 3%nat.
Proof.
  destruct (eventLoop_keeps_one_timer Sample.getSunrise Sample.getSunset
              Sample.plusOneDay defaultConfig [0; 0; 0] eq_refl
              (mkWorld 0 None (fun _ => None) [] [] []
                 [mkTimer 23401000 defaultConfig
                    {| fires := ValidDate 23400000; state := Colour |}])
              23401000 {| fires := ValidDate 23400000; state := Colour |}
              eq_refl)
    as (w' & d' & t' & Hrun & Htimers & Hnext & Happ & _).
  exists w', d', t'. split; [exact Hrun|]. split; [exact Htimers|].
  split; [apply Hnext; discriminate | exact Happ].
Defined.

Lemma invalid_oracle_spins_witness :
  exists w' d' t',
    eventLoop Polar.getSunrise Polar.getSunset Sample.plusOneDay
      [0; 0; 0]
      (mkWorld 0 None (fun _ => None) [] [] []
         [mkTimer 1 defaultConfig
                  {| fires := InvalidDate; state := NoIR |}]) =
      (inr tt, w') /\
    timers w' = [mkTimer d' defaultConfig t'] /\
    d' = clock w' + 1 /\
    armed (trace w') = [None; None; None] /\
    applied (trace w') = [NoIR; NoIR; NoIR].
Proof.
  destruct (invalid_oracle_spins Polar.getSunrise Polar.getSunset
              Sample.plusOneDay defaultConfig [0; 0; 0] eq_refl
              (fun _ => eq_refl) (fun _ => eq_refl)
              (mkWorld 0 None (fun _ => None) [] [] []
                 [mkTimer 1 defaultConfig
                    {| fires := InvalidDate; state := NoIR |}])
              1 {| fires := InvalidDate; state := NoIR |} eq_refl)
    as (w' & d' & t' & Hrun & Htimers & Hnext & Harm & Happ).
  exists w', d', t'. split; [exact Hrun|]. split; [exact Htimers|].
  split; [apply Hnext; discriminate|].
  split; [exact Harm | exact Happ].
Defined.
